(** * A/B testing notebook: confidence intervals and the two-proportion z-test

    This development embeds the statistical core of [PROJECT_2.ipynb]:

    - [proportion_ci], the notebook's helper that turns a success count and a
      trial count into a point estimate and a Wald confidence interval;
    - the hypothesis-test cell, which calls statsmodels'
      [proportions_ztest] on the arrays [[success_A, success_B]] and
      [[n_A, n_B]] with [alternative='larger'];
    - the results table of cell 3 and the error-bar and axis arguments that
      cell 4 computes from it for the plot.

    Numbers.  Python floats and numpy float64 values are modelled by the type
    [float] below: a finite value carries an exact real number, and the IEEE
    special values [inf], [-inf] and [nan] propagate as they do in numpy.
    Rounding and overflow of finite results are not modelled (the properties
    proved here are the exact-arithmetic ones, which the notebook's outputs
    approach up to rounding), and the two signed zeros are identified.

    Library functions.  [scipy.stats.norm] is represented by the standard
    normal distribution function [Phi] and its quantile function [Phi_inv],
    which are variables of the sections below; what is assumed about them is
    stated as section hypotheses where it is used.  The handling of special
    values by [norm.cdf], [norm.sf] and [norm.ppf] is written out. *)

From Stdlib Require Import Reals Lra ZArith Lia Bool.
From Stdlib Require Import List.
From Stdlib Require String.
Import ListNotations String.StringSyntax.
Delimit Scope string_scope with string.

Local Open Scope R_scope.

(** ** Floating-point values *)

Inductive float : Type :=
| NaN : float
| Inf (neg : bool) : float
| Fin (r : R) : float.

(** Sign test on a finite value, as a boolean. *)
Definition Rneg (r : R) : bool := if Rlt_dec r 0 then true else false.

Definition of_int (i : Z) : float := Fin (IZR i).

Definition fopp (x : float) : float :=
  match x with
  | NaN => NaN
  | Inf s => Inf (negb s)
  | Fin r => Fin (- r)
  end.

Definition fabs (x : float) : float :=
  match x with
  | NaN => NaN
  | Inf _ => Inf false
  | Fin r => Fin (Rabs r)
  end.

Definition fadd (x y : float) : float :=
  match x, y with
  | NaN, _ | _, NaN => NaN
  | Inf s, Inf t => if eqb s t then Inf s else NaN
  | Inf s, Fin _ => Inf s
  | Fin _, Inf t => Inf t
  | Fin a, Fin b => Fin (a + b)
  end.

Definition fsub (x y : float) : float := fadd x (fopp y).

Definition fmul (x y : float) : float :=
  match x, y with
  | NaN, _ | _, NaN => NaN
  | Inf s, Inf t => Inf (xorb s t)
  | Inf s, Fin r => if Req_dec_T r 0 then NaN else Inf (xorb s (Rneg r))
  | Fin r, Inf t => if Req_dec_T r 0 then NaN else Inf (xorb (Rneg r) t)
  | Fin a, Fin b => Fin (a * b)
  end.

(** IEEE division, as numpy performs it: dividing by zero gives an infinity
    (or [nan] for [0/0]) and no exception. *)
Definition fdiv (x y : float) : float :=
  match x, y with
  | NaN, _ | _, NaN => NaN
  | Inf _, Inf _ => NaN
  | Inf s, Fin r => Inf (xorb s (Rneg r))
  | Fin _, Inf _ => Fin 0
  | Fin a, Fin b =>
      if Req_dec_T b 0
      then (if Req_dec_T a 0 then NaN else Inf (Rneg a))
      else Fin (a / b)
  end.

(** [np.sqrt]: the square root of a negative number is [nan] (numpy warns and
    goes on). *)
Definition np_sqrt (x : float) : float :=
  match x with
  | NaN => NaN
  | Inf true => NaN
  | Inf false => Inf false
  | Fin r => if Rlt_dec r 0 then NaN else Fin (sqrt r)
  end.


Declare Scope float_scope.
Delimit Scope float_scope with fl.
Bind Scope float_scope with float.
Notation "x + y" := (fadd x y) : float_scope.
Notation "x - y" := (fsub x y) : float_scope.
Notation "x * y" := (fmul x y) : float_scope.
Notation "x / y" := (fdiv x y) : float_scope.

(** ** Python exceptions *)

(** [ZeroDivisionError] is what Python's [/] raises on a zero divisor.
    [InvalidArgument] is the error kind the specification names for rejected
    inputs; no path of the notebook raises it. *)
Inductive exception : Type :=
| ZeroDivisionError
| InvalidArgument.

Inductive result (A : Type) : Type :=
| Ok (a : A)
| Err (e : exception).
Arguments Ok {A} a.
Arguments Err {A} e.

Definition bind {A B : Type} (m : result A) (f : A -> result B) : result B :=
  match m with
  | Ok a => f a
  | Err e => Err e
  end.

Notation "x <- m ;; f" := (bind m (fun x => f))
  (at level 100, m at next level, right associativity).

(** Python's true division [x / y] on ints and floats: a zero divisor raises,
    anything else is the IEEE quotient. *)
Definition py_truediv (x y : float) : result float :=
  match y with
  | Fin r => if Req_dec_T r 0 then Err ZeroDivisionError else Ok (x / y)%fl
  | _ => Ok (x / y)%fl
  end.

(** ** The code under verification *)

Section Notebook.

(** The standard normal distribution function and its quantile function. *)
Variable Phi : R -> R.
Variable Phi_inv : R -> R.

(** [scipy.stats.norm.cdf]. *)
Definition norm_cdf (x : float) : float :=
  match x with
  | NaN => NaN
  | Inf true => Fin 0
  | Inf false => Fin 1
  | Fin r => Fin (Phi r)
  end.

(** [scipy.stats.norm.sf], the survival function [1 - cdf]. *)
Definition norm_sf (x : float) : float :=
  match x with
  | NaN => NaN
  | Inf true => Fin 1
  | Inf false => Fin 0
  | Fin r => Fin (1 - Phi r)
  end.

(** [scipy.stats.norm.ppf]: the quantile inside (0,1), the infinities at the
    end points, [nan] elsewhere. *)
Definition norm_ppf (q : float) : float :=
  match q with
  | Fin r =>
      if Rlt_dec 0 r then
        if Rlt_dec r 1 then Fin (Phi_inv r)
        else if Req_dec_T r 1 then Inf false else NaN
      else if Req_dec_T r 0 then Inf true else NaN
  | _ => NaN
  end.

(** Notebook, cell 3:
<<
def proportion_ci(k: int, n: int, alpha: float = 0.05):
    p_hat = k / n
    z = norm.ppf(1 - alpha / 2)
    se = np.sqrt(p_hat * (1 - p_hat) / n)   # standard error
    half_width = z * se
    return p_hat, p_hat - half_width, p_hat + half_width
>>
    Both divisions by [n] are Python divisions and raise on [n = 0];
    [alpha / 2] divides by a non-zero literal. *)
Definition proportion_ci (k n : Z) (alpha : float)
  : result (float * float * float) :=
  p_hat <- py_truediv (of_int k) (of_int n) ;;
  let z := norm_ppf (of_int 1 - alpha / of_int 2)%fl in
  v <- py_truediv (p_hat * (of_int 1 - p_hat))%fl (of_int n) ;;
  let se := np_sqrt v in
  let half_width := (z * se)%fl in
  Ok (p_hat, (p_hat - half_width)%fl, (p_hat + half_width)%fl).

(** The default significance level of [proportion_ci]. *)
Definition default_alpha : float := Fin 0.05.

(** The [alternative] argument of the z-test. *)
Inductive alternative : Type :=
| two_sided
| larger
| smaller.

(** [statsmodels.stats.weightstats._zstat_generic2]:
<<
    zstat = value / std
    if alternative in ['two-sided', '2-sided', '2s']:
        pvalue = stats.norm.sf(np.abs(zstat))*2
    elif alternative in ['larger', 'l']:
        pvalue = stats.norm.sf(zstat)
    elif alternative in ['smaller', 's']:
        pvalue = stats.norm.cdf(zstat)
    return zstat, pvalue
>>
    The operands are numpy values, so the division is the IEEE one. *)
Definition _zstat_generic2 (value std : float) (alt : alternative)
  : float * float :=
  let zstat := (value / std)%fl in
  let pvalue :=
    match alt with
    | two_sided => (norm_sf (fabs zstat) * of_int 2)%fl
    | larger => norm_sf zstat
    | smaller => norm_cdf zstat
    end in
  (zstat, pvalue).

(** [statsmodels.stats.proportion.proportions_ztest] on two samples, with
    [value=None] and [prop_var=False] as the notebook calls it.  statsmodels
    is a dependency of the notebook, not part of it; the function is embedded
    from the library's source, and the output recorded under cell 5
    (statistic -6.655, p-value 1.0000) is what this definition gives.
    [count] and [nobs] are the two-element integer arrays:
<<
    prop = count * 1. / nobs
    diff = prop[0] - prop[1] - value            # value = 0
    p_pooled = np.sum(count) * 1. / np.sum(nobs)
    nobs_fact = np.sum(1. / nobs)
    var_ = p_pooled * (1 - p_pooled) * nobs_fact
    std_diff = np.sqrt(var_)
    return _zstat_generic2(diff, std_diff, alternative)
>>  *)
Definition proportions_ztest (count nobs : Z * Z) (alt : alternative)
  : float * float :=
  let prop :=
    ((of_int (fst count) * Fin 1 / of_int (fst nobs))%fl,
     (of_int (snd count) * Fin 1 / of_int (snd nobs))%fl) in
  let diff := (fst prop - snd prop - of_int 0)%fl in
  let p_pooled :=
    (of_int (fst count + snd count) * Fin 1
       / of_int (fst nobs + snd nobs))%fl in
  let nobs_fact := (Fin 1 / of_int (fst nobs) + Fin 1 / of_int (snd nobs))%fl in
  let var_ := (p_pooled * (of_int 1 - p_pooled) * nobs_fact)%fl in
  let std_diff := np_sqrt var_ in
  _zstat_generic2 diff std_diff alt.

(** Notebook, cell 5:
<<
count = np.array([success_A, success_B])
nobs  = np.array([n_A, n_B])
stat, pval = proportions_ztest(count, nobs, alternative='larger')  # 'larger' tests B > A
>>  *)
Definition ab_test (success_A n_A success_B n_B : Z) : float * float :=
  let count := (success_A, success_B) in
  let nobs := (n_A, n_B) in
  proportions_ztest count nobs larger.

End Notebook.

(** ** The interval estimator as the specification words it

    Real-valued formulas of the specification's interval estimator, to be
    compared with what [proportion_ci] returns. *)

Section IntervalSpec.

Variable Phi_inv : R -> R.

Definition point_estimate (k n : Z) : R := IZR k / IZR n.

Definition standard_error (k n : Z) : R :=
  sqrt (point_estimate k n * (1 - point_estimate k n) / IZR n).

Definition critical_value (alpha : R) : R := Phi_inv (1 - alpha / 2).

Definition half_width (k n : Z) (alpha : R) : R :=
  critical_value alpha * standard_error k n.

Definition wald_interval (k n : Z) (alpha : R) : float * float * float :=
  (Fin (point_estimate k n),
   Fin (point_estimate k n - half_width k n alpha),
   Fin (point_estimate k n + half_width k n alpha)).

End IntervalSpec.

(** Inputs the specification calls valid for the interval estimator. *)
Definition valid_ci_input (k n : Z) (alpha : R) : Prop :=
  (0 < n)%Z /\ (0 <= k <= n)%Z /\ 0 < alpha < 1.

(** ** The hypothesis tester as the specification words it *)

Definition pooled_proportion (k1 n1 k2 n2 : Z) : R :=
  IZR (k1 + k2) / IZR (n1 + n2).

Definition pooled_se (k1 n1 k2 n2 : Z) : R :=
  sqrt (pooled_proportion k1 n1 k2 n2 * (1 - pooled_proportion k1 n1 k2 n2)
        * (1 / IZR n1 + 1 / IZR n2)).

(** The specification's statistic, positive when variant 2 is ahead. *)
Definition spec_statistic (k1 n1 k2 n2 : Z) : R :=
  (point_estimate k2 n2 - point_estimate k1 n1) / pooled_se k1 n1 k2 n2.

(** Inputs the specification calls valid for the tester. *)
Definition valid_observation (k n : Z) : Prop := (0 < n)%Z /\ (0 <= k <= n)%Z.

(** ** A reference distribution

    A symmetric distribution with closed-form distribution and quantile
    functions, used to check that what is assumed of [Phi] and [Phi_inv] can
    be met: the uniform distribution on [[-c, c]], with [c] chosen so that
    its 97.5 percent quantile is the normal one, 1.959964. *)

Definition unif_c : R := 1959964 / 950000.

Definition unif_cdf (x : R) : R := Rmax 0 (Rmin 1 (1 / 2 + x / (2 * unif_c))).

Definition unif_ppf (q : R) : R := unif_c * (2 * q - 1).

(** ** The results table and the plot *)

(** The larger of two values, skipping [nan] as pandas' [Series.max] does by
    default. *)
Definition fmax_skipna (x y : float) : float :=
  match x, y with
  | NaN, _ => y
  | _, NaN => x
  | Inf false, _ | _, Inf false => Inf false
  | Inf true, _ => y
  | _, Inf true => x
  | Fin a, Fin b => Fin (Rmax a b)
  end.

(** [Series.max()]: [nan] for a column without a value. *)
Definition series_max (s : list float) : float := fold_right fmax_skipna NaN s.


(** The table of cell 3, column by column as it is passed to
    [pd.DataFrame]. *)
Record DataFrame : Type := {
  Variant : list String.string;
  Visitors : list Z;
  Conversions : list Z;
  CR : list float;
  CI_Lower : list float;
  CI_Upper : list float
}.

Section NotebookTable.

Variable Phi_inv : R -> R.

(** Notebook, cell 3, after the helper:
<<
cr_A, ci_low_A, ci_high_A = proportion_ci(success_A, n_A)
cr_B, ci_low_B, ci_high_B = proportion_ci(success_B, n_B)

results = pd.DataFrame({
    'Variant': ['A', 'B'],
    'Visitors': [n_A, n_B],
    'Conversions': [success_A, success_B],
    'CR (%)': [cr_A*100, cr_B*100],
    'CI Lower (95%)': [ci_low_A*100, ci_low_B*100],
    'CI Upper (95%)': [ci_high_A*100, ci_high_B*100]
})
>>  *)
Definition results (success_A n_A success_B n_B : Z) : result DataFrame :=
  ra <- proportion_ci Phi_inv success_A n_A default_alpha ;;
  let '(cr_A, ci_low_A, ci_high_A) := ra in
  rb <- proportion_ci Phi_inv success_B n_B default_alpha ;;
  let '(cr_B, ci_low_B, ci_high_B) := rb in
  Ok {| Variant := ["A"%string; "B"%string];
        Visitors := [n_A; n_B];
        Conversions := [success_A; success_B];
        CR := [(cr_A * of_int 100)%fl; (cr_B * of_int 100)%fl];
        CI_Lower := [(ci_low_A * of_int 100)%fl; (ci_low_B * of_int 100)%fl];
        CI_Upper := [(ci_high_A * of_int 100)%fl; (ci_high_B * of_int 100)%fl] |}.

End NotebookTable.


(** Notebook, cell 4, the arguments of [plt.ylim]:
<<
plt.ylim(0, results['CI Upper (95%)'].max() + 2)
>>  *)
Definition plot_ylim (df : DataFrame) : float * float :=
  (of_int 0, (series_max (CI_Upper df) + of_int 2)%fl).

(** ** Evaluation lemmas for the arithmetic *)

Lemma fdiv_fin (a b : R) : b <> 0 -> (Fin a / Fin b)%fl = Fin (a / b).
Proof.
  intros Hb. unfold fdiv. destruct (Req_dec_T b 0) as [E | _]; [contradiction | reflexivity].
Qed.

Lemma fdiv_zero_zero : (Fin 0 / Fin 0)%fl = NaN.
Proof.
  unfold fdiv. destruct (Req_dec_T 0 0) as [_ | N]; [reflexivity | contradiction].
Qed.

Lemma py_truediv_fin (a b : R) :
  b <> 0 -> py_truediv (Fin a) (Fin b) = Ok (Fin (a / b)).
Proof.
  intros Hb. unfold py_truediv.
  destruct (Req_dec_T b 0) as [E | _]; [contradiction |].
  now rewrite fdiv_fin.
Qed.


Lemma np_sqrt_fin (r : R) : 0 <= r -> np_sqrt (Fin r) = Fin (sqrt r).
Proof.
  intros Hr. unfold np_sqrt. destruct (Rlt_dec r 0) as [L | _]; [lra | reflexivity].
Qed.





Lemma norm_ppf_fin (Phi_inv : R -> R) (q : R) :
  0 < q < 1 -> norm_ppf Phi_inv (Fin q) = Fin (Phi_inv q).
Proof.
  intros [H0 H1]. unfold norm_ppf.
  destruct (Rlt_dec 0 q) as [_ | N]; [| contradiction].
  destruct (Rlt_dec q 1) as [_ | N]; [reflexivity | contradiction].
Qed.

Lemma norm_ppf_one (Phi_inv : R -> R) : norm_ppf Phi_inv (Fin 1) = Inf false.
Proof.
  unfold norm_ppf.
  destruct (Rlt_dec 0 1) as [_ | N]; [| lra].
  destruct (Rlt_dec 1 1) as [L | _]; [lra |].
  destruct (Req_dec_T 1 1) as [_ | N]; [reflexivity | contradiction].
Qed.

Lemma fmul_inf_zero (s : bool) : (Inf s * Fin 0)%fl = NaN.
Proof.
  unfold fmul. destruct (Req_dec_T 0 0) as [_ | N]; [reflexivity | contradiction].
Qed.

Lemma IZR_pos_neq (n : Z) : (0 < n)%Z -> IZR n <> 0.
Proof. intros H. apply IZR_lt in H. lra. Qed.

(** The estimated proportion lies in the unit interval for valid counts. *)
Lemma point_estimate_range (k n : Z) :
  (0 < n)%Z -> (0 <= k <= n)%Z -> 0 <= point_estimate k n <= 1.
Proof.
  intros Hn [Hk0 Hkn]. unfold point_estimate.
  apply IZR_lt in Hn. apply IZR_le in Hk0. apply IZR_le in Hkn.
  split.
  - apply Rmult_le_pos; [lra | left; now apply Rinv_0_lt_compat].
  - apply Rmult_le_reg_r with (IZR n); [lra |].
    unfold Rdiv. rewrite Rmult_assoc, Rinv_l by lra. lra.
Qed.

(** The argument of the square root is non-negative for valid counts. *)
Lemma variance_nonneg (k n : Z) :
  (0 < n)%Z -> (0 <= k <= n)%Z ->
  0 <= point_estimate k n * (1 - point_estimate k n) / IZR n.
Proof.
  intros Hn Hk. pose proof (point_estimate_range k n Hn Hk) as [H0 H1].
  apply IZR_lt in Hn.
  apply Rmult_le_pos; [nra | left; now apply Rinv_0_lt_compat].
Qed.

Lemma standard_error_nonneg (k n : Z) : 0 <= standard_error k n.
Proof. unfold standard_error. apply sqrt_pos. Qed.


(** ** What is assumed of the normal distribution, and the reference instance *)

Lemma unif_c_pos : 0 < unif_c.
Proof. unfold unif_c. lra. Qed.

Lemma unif_cdf_mono (x y : R) : x <= y -> unif_cdf x <= unif_cdf y.
Proof.
  intros Hxy. pose proof unif_c_pos as Hc. unfold unif_cdf.
  assert (x / (2 * unif_c) <= y / (2 * unif_c)) as Hd.
  { unfold Rdiv. apply Rmult_le_compat_r; [| exact Hxy].
    left. apply Rinv_0_lt_compat. lra. }
  unfold Rmax, Rmin.
  repeat (destruct (Rle_dec _ _)); lra.
Qed.

Lemma unif_cdf_sym (x : R) : unif_cdf (- x) = 1 - unif_cdf x.
Proof.
  unfold unif_cdf.
  replace (- x / (2 * unif_c)) with (- (x / (2 * unif_c)))
    by (unfold Rdiv; ring).
  unfold Rmax, Rmin.
  repeat (destruct (Rle_dec _ _)); lra.
Qed.

Lemma unif_cdf_ppf (q : R) : 0 < q < 1 -> unif_cdf (unif_ppf q) = q.
Proof.
  intros [H0 H1]. pose proof unif_c_pos as Hc. unfold unif_cdf, unif_ppf.
  replace (1 / 2 + unif_c * (2 * q - 1) / (2 * unif_c)) with q
    by (field; lra).
  unfold Rmax, Rmin.
  repeat (destruct (Rle_dec _ _)); lra.
Qed.

Lemma unif_ppf_975 : 1.95996 <= unif_ppf (1 - 0.05 / 2) <= 1.95997.
Proof. unfold unif_ppf, unif_c. lra. Qed.

Section NormalFacts.

Variable Phi : R -> R.
Variable Phi_inv : R -> R.

Hypothesis Phi_mono : forall x y : R, x <= y -> Phi x <= Phi y.
Hypothesis Phi_sym : forall x : R, Phi (- x) = 1 - Phi x.
Hypothesis Phi_inv_spec : forall q : R, 0 < q < 1 -> Phi (Phi_inv q) = q.

Lemma Phi_zero : Phi 0 = 1 / 2.
Proof. pose proof (Phi_sym 0) as H. rewrite Ropp_0 in H. lra. Qed.

Lemma Phi_nonpos (x : R) : x <= 0 -> Phi x <= 1 / 2.
Proof. intros Hx. rewrite <- Phi_zero. now apply Phi_mono. Qed.

Lemma Phi_inv_nonneg (q : R) : 1 / 2 < q < 1 -> 0 <= Phi_inv q.
Proof.
  intros [Hq Hq1].
  destruct (Rle_lt_dec 0 (Phi_inv q)) as [H | H]; [exact H |].
  pose proof (Phi_nonpos (Phi_inv q) (Rlt_le _ _ H)) as Hle.
  rewrite Phi_inv_spec in Hle by lra. lra.
Qed.


End NormalFacts.

(** ** Properties of the interval estimator *)

Lemma sqrt_between (a b v : R) :
  0 <= a -> 0 <= b -> a * a <= v -> v <= b * b -> a <= sqrt v <= b.
Proof.
  intros Ha Hb Hav Hvb. split.
  - rewrite <- (sqrt_square a Ha). now apply sqrt_le_1_alt.
  - rewrite <- (sqrt_square b Hb). now apply sqrt_le_1_alt.
Qed.

Section IntervalProperties.

Variable Phi : R -> R.
Variable Phi_inv : R -> R.

Hypothesis Phi_mono : forall x y : R, x <= y -> Phi x <= Phi y.
Hypothesis Phi_sym : forall x : R, Phi (- x) = 1 - Phi x.
Hypothesis Phi_inv_spec : forall q : R, 0 < q < 1 -> Phi (Phi_inv q) = q.

(** On valid input [proportion_ci] raises nothing, meets no special value and
    returns the Wald interval of the specification. *)
Lemma proportion_ci_valid (k n : Z) (alpha : R) :
  valid_ci_input k n alpha ->
  proportion_ci Phi_inv k n (Fin alpha) = Ok (wald_interval Phi_inv k n alpha).
Proof.
  intros (Hn & Hk & Ha0 & Ha1).
  pose proof (IZR_pos_neq n Hn) as Hn0.
  unfold proportion_ci, of_int.
  rewrite py_truediv_fin by exact Hn0. cbn [bind].
  rewrite fdiv_fin by lra.
  cbn [fsub fopp fadd fmul].
  rewrite norm_ppf_fin by lra.
  rewrite py_truediv_fin by exact Hn0. cbn [bind].
  rewrite np_sqrt_fin by (apply (variance_nonneg k n Hn Hk)).
  reflexivity.
Qed.

Lemma critical_value_nonneg (alpha : R) :
  0 < alpha < 1 -> 0 <= critical_value Phi_inv alpha.
Proof.
  intros Ha. unfold critical_value.
  apply (Phi_inv_nonneg Phi Phi_inv Phi_mono Phi_sym Phi_inv_spec). lra.
Qed.

Lemma half_width_nonneg (k n : Z) (alpha : R) :
  0 < alpha < 1 -> 0 <= half_width Phi_inv k n alpha.
Proof.
  intros Ha. unfold half_width.
  apply Rmult_le_pos;
    [now apply critical_value_nonneg | apply standard_error_nonneg].
Qed.







(** With any other trial count both divisions go through and a triple is
    returned, whatever the other arguments are. *)
Lemma proportion_ci_returns (k n : Z) (alpha : float) :
  n <> 0%Z ->
  proportion_ci Phi_inv k n alpha =
  Ok (Fin (IZR k / IZR n),
      (Fin (IZR k / IZR n)
       - norm_ppf Phi_inv (of_int 1 - alpha / of_int 2)
         * np_sqrt (Fin (IZR k / IZR n * (1 - IZR k / IZR n) / IZR n)))%fl,
      (Fin (IZR k / IZR n)
       + norm_ppf Phi_inv (of_int 1 - alpha / of_int 2)
         * np_sqrt (Fin (IZR k / IZR n * (1 - IZR k / IZR n) / IZR n)))%fl).
Proof.
  intros Hn. assert (IZR n <> 0) as Hn0 by (now apply not_0_IZR).
  unfold proportion_ci, of_int.
  rewrite py_truediv_fin by exact Hn0. cbn [bind].
  cbn [fsub fopp fadd fmul].
  rewrite py_truediv_fin by exact Hn0. cbn [bind].
  reflexivity.
Qed.


(** At the end of the range of significance levels: with [alpha = 0] the
    critical value is [inf], and a count with zero standard error turns the
    half-width [inf * 0] into [nan]. *)
Lemma proportion_ci_alpha_zero (n : Z) :
  (0 < n)%Z -> proportion_ci Phi_inv 0 n (Fin 0) = Ok (Fin 0, NaN, NaN).
Proof.
  intros Hn. pose proof (IZR_pos_neq n Hn) as Hn0.
  rewrite proportion_ci_returns by lia.
  unfold of_int. rewrite fdiv_fin by lra. cbn [fsub fopp fadd].
  replace (1 + - (0 / 2)) with 1 by lra.
  rewrite norm_ppf_one.
  replace (0 / IZR n * (1 - 0 / IZR n) / IZR n) with 0
    by (unfold Rdiv; ring).
  rewrite np_sqrt_fin by lra. rewrite sqrt_0, fmul_inf_zero.
  replace (0 / IZR n) with 0 by (unfold Rdiv; ring).
  reflexivity.
Qed.


(** C4: the two recorded scenarios.  With the 97.5 percent normal quantile
    1.959964 (taken here between 1.95996 and 1.95997), 949 and 1243
    successes out of 10000 give the point estimates 0.0949 and 0.1243 and
    bounds that agree with 0.089156, 0.100644, 0.117834 and 0.130766 to six
    decimals. *)
Theorem proportion_ci_scenarios :
  1.95996 <= Phi_inv (1 - 0.05 / 2) <= 1.95997 ->
  (exists lo hi : R,
     proportion_ci Phi_inv 949 10000 default_alpha
       = Ok (Fin 0.0949, Fin lo, Fin hi) /\
     Rabs (lo - 0.089156) <= 5e-7 /\ Rabs (hi - 0.100644) <= 5e-7) /\
  (exists lo hi : R,
     proportion_ci Phi_inv 1243 10000 default_alpha
       = Ok (Fin 0.1243, Fin lo, Fin hi) /\
     Rabs (lo - 0.117834) <= 5e-7 /\ Rabs (hi - 0.130766) <= 5e-7).
Proof.
  intros Hz. unfold default_alpha. split.
  - assert (valid_ci_input 949 10000 0.05) as Hv
      by (unfold valid_ci_input; repeat split; try lia; lra).
    rewrite (proportion_ci_valid _ _ _ Hv).
    unfold wald_interval, half_width, critical_value, standard_error.
    assert (point_estimate 949 10000 = 0.0949) as -> by (unfold point_estimate; lra).
    pose proof (sqrt_between 0.002930767 0.002930768
                  (0.0949 * (1 - 0.0949) / 10000)) as Hs.
    destruct Hs as [Hs1 Hs2]; try lra.
    eexists _, _. split; [reflexivity |].
    split; apply Rabs_le; nra.
  - assert (valid_ci_input 1243 10000 0.05) as Hv
      by (unfold valid_ci_input; repeat split; try lia; lra).
    rewrite (proportion_ci_valid _ _ _ Hv).
    unfold wald_interval, half_width, critical_value, standard_error.
    assert (point_estimate 1243 10000 = 0.1243) as -> by (unfold point_estimate; lra).
    pose proof (sqrt_between 0.003299234 0.003299235
                  (0.1243 * (1 - 0.1243) / 10000)) as Hs.
    destruct Hs as [Hs1 Hs2]; try lra.
    eexists _, _. split; [reflexivity |].
    split; apply Rabs_le; nra.
Qed.

(** The bounds do leave the unit interval: at the 95 percent level one
    success in ten trials gives a negative lower bound, and nine successes in
    ten trials an upper bound above 1. *)
Lemma proportion_ci_leaves_unit_interval :
  1.95996 <= Phi_inv (1 - 0.05 / 2) ->
  (exists p lo hi : R,
     proportion_ci Phi_inv 1 10 default_alpha = Ok (Fin p, Fin lo, Fin hi) /\
     lo < 0) /\
  (exists p lo hi : R,
     proportion_ci Phi_inv 9 10 default_alpha = Ok (Fin p, Fin lo, Fin hi) /\
     1 < hi).
Proof.
  intros Hz. unfold default_alpha. split.
  - assert (valid_ci_input 1 10 0.05) as Hv
      by (unfold valid_ci_input; repeat split; try lia; lra).
    rewrite (proportion_ci_valid _ _ _ Hv).
    unfold wald_interval, half_width, critical_value, standard_error.
    assert (point_estimate 1 10 = 0.1) as -> by (unfold point_estimate; lra).
    pose proof (sqrt_between 0.09 0.1 (0.1 * (1 - 0.1) / 10)) as Hs.
    destruct Hs as [Hs1 Hs2]; try lra.
    eexists _, _, _. split; [reflexivity | nra].
  - assert (valid_ci_input 9 10 0.05) as Hv
      by (unfold valid_ci_input; repeat split; try lia; lra).
    rewrite (proportion_ci_valid _ _ _ Hv).
    unfold wald_interval, half_width, critical_value, standard_error.
    assert (point_estimate 9 10 = 0.9) as -> by (unfold point_estimate; lra).
    pose proof (sqrt_between 0.09 0.1 (0.9 * (1 - 0.9) / 10)) as Hs.
    destruct Hs as [Hs1 Hs2]; try lra.
    eexists _, _, _. split; [reflexivity | nra].
Qed.

End IntervalProperties.

(** ** Properties of the hypothesis tester *)

Lemma pooled_proportion_range (k1 n1 k2 n2 : Z) :
  valid_observation k1 n1 -> valid_observation k2 n2 ->
  0 <= pooled_proportion k1 n1 k2 n2 <= 1.
Proof.
  intros [Hn1 Hk1] [Hn2 Hk2].
  apply (point_estimate_range (k1 + k2) (n1 + n2)); lia.
Qed.

Lemma nobs_fact_pos (n1 n2 : Z) :
  (0 < n1)%Z -> (0 < n2)%Z -> 0 < 1 / IZR n1 + 1 / IZR n2.
Proof.
  intros H1 H2. apply IZR_lt in H1. apply IZR_lt in H2.
  apply Rplus_lt_0_compat; apply Rdiv_lt_0_compat; lra.
Qed.

Lemma pooled_variance_nonneg (k1 n1 k2 n2 : Z) :
  valid_observation k1 n1 -> valid_observation k2 n2 ->
  0 <= pooled_proportion k1 n1 k2 n2 * (1 - pooled_proportion k1 n1 k2 n2)
       * (1 / IZR n1 + 1 / IZR n2).
Proof.
  intros H1 H2.
  pose proof (pooled_proportion_range _ _ _ _ H1 H2) as [Hp0 Hp1].
  pose proof (nobs_fact_pos n1 n2 (proj1 H1) (proj1 H2)) as Hf.
  apply Rmult_le_pos; [nra | lra].
Qed.

Section TesterProperties.

Variable Phi : R -> R.

Hypothesis Phi_mono : forall x y : R, x <= y -> Phi x <= Phi y.
Hypothesis Phi_sym : forall x : R, Phi (- x) = 1 - Phi x.

(** What [proportions_ztest] computes before the final division, on valid
    observations: the difference of the two rates, first minus second, and
    the pooled standard error. *)
Lemma proportions_ztest_unfold (k1 n1 k2 n2 : Z) (alt : alternative) :
  valid_observation k1 n1 -> valid_observation k2 n2 ->
  proportions_ztest Phi (k1, k2) (n1, n2) alt =
  _zstat_generic2 Phi
    (Fin (point_estimate k1 n1 - point_estimate k2 n2))
    (Fin (pooled_se k1 n1 k2 n2)) alt.
Proof.
  intros H1 H2.
  pose proof (pooled_variance_nonneg _ _ _ _ H1 H2) as Hvar.
  destruct H1 as [Hn1 Hk1]. destruct H2 as [Hn2 Hk2].
  pose proof (IZR_pos_neq n1 Hn1) as Hn1'.
  pose proof (IZR_pos_neq n2 Hn2) as Hn2'.
  assert (IZR (n1 + n2) <> 0) as Hn12 by (apply IZR_pos_neq; lia).
  unfold proportions_ztest, of_int. cbn [fst snd fmul].
  rewrite !fdiv_fin by assumption.
  cbn [fsub fopp fadd fmul].
  replace (IZR (k1 + k2) * 1 / IZR (n1 + n2))
    with (pooled_proportion k1 n1 k2 n2)
    by (unfold pooled_proportion; field; assumption).
  rewrite np_sqrt_fin.
  - unfold pooled_se, point_estimate.
    replace (IZR k1 * 1 / IZR n1 + - (IZR k2 * 1 / IZR n2) + - 0)
      with (IZR k1 / IZR n1 - IZR k2 / IZR n2)
      by (field; split; assumption).
    reflexivity.
  - replace (1 + - pooled_proportion k1 n1 k2 n2)
      with (1 - pooled_proportion k1 n1 k2 n2) by ring.
    exact Hvar.
Qed.

(** What the test returns on valid observations with a non-zero pooled
    standard error: a finite statistic and the p-value the alternative
    selects. *)
Lemma proportions_ztest_valid (k1 n1 k2 n2 : Z) (alt : alternative) :
  valid_observation k1 n1 -> valid_observation k2 n2 ->
  pooled_se k1 n1 k2 n2 <> 0 ->
  let z := (point_estimate k1 n1 - point_estimate k2 n2)
           / pooled_se k1 n1 k2 n2 in
  proportions_ztest Phi (k1, k2) (n1, n2) alt =
  (Fin z,
   match alt with
   | two_sided => Fin ((1 - Phi (Rabs z)) * 2)
   | larger => Fin (1 - Phi z)
   | smaller => Fin (Phi z)
   end).
Proof.
  intros H1 H2 Hse z.
  rewrite (proportions_ztest_unfold k1 n1 k2 n2 alt H1 H2).
  unfold _zstat_generic2. rewrite fdiv_fin by exact Hse.
  fold z. destruct alt; reflexivity.
Qed.

(** C2, as the code has it: the notebook passes variant A first, and
    [proportions_ztest] subtracts the second rate from the first.  The
    statistic is therefore the opposite of the specification's
    [(p2 - p1) / SE], negative when variant 2 is ahead, and the p-value of
    the notebook's 'larger' test is [1 - Phi] of that opposite value. *)
Theorem ab_test_statistic_reversed (k1 n1 k2 n2 : Z) :
  valid_observation k1 n1 -> valid_observation k2 n2 ->
  pooled_se k1 n1 k2 n2 <> 0 ->
  exists z : R,
    ab_test Phi k1 n1 k2 n2 = (Fin z, Fin (1 - Phi z)) /\
    z = (point_estimate k1 n1 - point_estimate k2 n2)
        / pooled_se k1 n1 k2 n2 /\
    z = - spec_statistic k1 n1 k2 n2 /\
    (point_estimate k1 n1 < point_estimate k2 n2 -> z < 0).
Proof.
  intros H1 H2 Hse.
  exists ((point_estimate k1 n1 - point_estimate k2 n2)
          / pooled_se k1 n1 k2 n2).
  split; [| split; [reflexivity | split]].
  - unfold ab_test.
    exact (proportions_ztest_valid k1 n1 k2 n2 larger H1 H2 Hse).
  - unfold spec_statistic. field. exact Hse.
  - intros Hlt.
    assert (0 < pooled_se k1 n1 k2 n2) as Hpos.
    { pose proof (sqrt_pos
        (pooled_proportion k1 n1 k2 n2 * (1 - pooled_proportion k1 n1 k2 n2)
         * (1 / IZR n1 + 1 / IZR n2))) as Hs.
      fold (pooled_se k1 n1 k2 n2) in Hs. lra. }
    pose proof (Rinv_0_lt_compat _ Hpos) as Hinv.
    unfold Rdiv. nra.
Qed.

(** C1, as the code has it: on the recorded counts (949 and 1243 successes
    out of 10000 each) the notebook's test returns a statistic of about
    -6.655 and a p-value of at least one half, as the recorded output
    (-6.655 and 1.0000) shows. *)
Theorem ab_test_scenario :
  exists z p : R,
    ab_test Phi 949 10000 1243 10000 = (Fin z, Fin p) /\
    -6.6555 < z < -6.6545 /\
    0.5 <= p.
Proof.
  assert (valid_observation 949 10000) as H1
    by (unfold valid_observation; lia).
  assert (valid_observation 1243 10000) as H2
    by (unfold valid_observation; lia).
  assert (pooled_proportion 949 10000 1243 10000 = 0.1096) as Hpp
    by (unfold pooled_proportion; rewrite !plus_IZR; lra).
  pose proof (sqrt_between 0.004417869 0.004417870
                (0.1096 * (1 - 0.1096) * (1 / 10000 + 1 / 10000))) as Hs.
  destruct Hs as [Hs1 Hs2]; try lra.
  assert (pooled_se 949 10000 1243 10000
          = sqrt (0.1096 * (1 - 0.1096) * (1 / 10000 + 1 / 10000))) as Hse
    by (unfold pooled_se; now rewrite Hpp).
  assert (pooled_se 949 10000 1243 10000 <> 0) as Hne by (rewrite Hse; lra).
  pose proof (proportions_ztest_valid 949 10000 1243 10000 larger H1 H2 Hne)
    as Hab.
  cbv zeta in Hab. fold (ab_test Phi 949 10000 1243 10000) in Hab.
  set (z := (point_estimate 949 10000 - point_estimate 1243 10000)
            / pooled_se 949 10000 1243 10000) in *.
  assert (z = (point_estimate 949 10000 - point_estimate 1243 10000)
              / pooled_se 949 10000 1243 10000) as Hz by reflexivity.
  clearbody z.
  exists z, (1 - Phi z). split; [exact Hab |].
  assert (z * pooled_se 949 10000 1243 10000 = -0.0294) as Hprod.
  { rewrite Hz. unfold point_estimate. field_simplify; [lra | exact Hne]. }
  rewrite Hse in Hprod.
  assert (-6.6555 < z < -6.6545) as Hzb by (split; nra).
  split; [exact Hzb |].
  assert (Phi z <= 1 / 2) as Hphi.
  { apply (Phi_nonpos Phi Phi_mono Phi_sym). lra. }
  lra.
Qed.

(** C9: when the pooled standard error is zero the test raises nothing and
    returns [nan] both as statistic and as p-value, whatever the
    alternative; so does the notebook's call. *)
Theorem proportions_ztest_degenerate (k1 n1 k2 n2 : Z) :
  valid_observation k1 n1 -> valid_observation k2 n2 ->
  pooled_se k1 n1 k2 n2 = 0 ->
  (forall alt : alternative,
     proportions_ztest Phi (k1, k2) (n1, n2) alt = (NaN, NaN)) /\
  ab_test Phi k1 n1 k2 n2 = (NaN, NaN).
Proof.
  intros H1 H2 Hse.
  assert (point_estimate k1 n1 - point_estimate k2 n2 = 0) as Hdiff.
  { pose proof (pooled_variance_nonneg _ _ _ _ H1 H2) as Hvar.
    pose proof (sqrt_eq_0 _ Hvar Hse) as Hzero.
    pose proof (nobs_fact_pos n1 n2 (proj1 H1) (proj1 H2)) as Hf.
    destruct H1 as [Hn1 Hk1]. destruct H2 as [Hn2 Hk2].
    pose proof (IZR_pos_neq n1 Hn1) as Hn1'.
    pose proof (IZR_pos_neq n2 Hn2) as Hn2'.
    assert (IZR (n1 + n2) <> 0) as Hn12 by (apply IZR_pos_neq; lia).
    assert (pooled_proportion k1 n1 k2 n2 = 0
            \/ pooled_proportion k1 n1 k2 n2 = 1) as Hp.
    { apply Rmult_integral in Hzero. destruct Hzero as [Hz | Hz]; [| lra].
      apply Rmult_integral in Hz. destruct Hz as [Hz | Hz]; [now left |].
      right. lra. }
    assert (IZR (k1 + k2) = pooled_proportion k1 n1 k2 n2 * IZR (n1 + n2))
      as Hsum by (unfold pooled_proportion; field; exact Hn12).
    unfold point_estimate.
    destruct Hp as [Hp | Hp]; rewrite Hp in Hsum.
    - rewrite Rmult_0_l in Hsum. apply eq_IZR in Hsum.
      assert (k1 = 0%Z) as -> by lia. assert (k2 = 0%Z) as -> by lia.
      unfold Rdiv. ring.
    - rewrite Rmult_1_l in Hsum. apply eq_IZR in Hsum.
      assert (k1 = n1) as -> by lia. assert (k2 = n2) as -> by lia.
      field. split; assumption. }
  assert (forall alt : alternative,
            proportions_ztest Phi (k1, k2) (n1, n2) alt = (NaN, NaN)) as Hall.
  { intros alt.
    rewrite (proportions_ztest_unfold k1 n1 k2 n2 alt H1 H2).
    rewrite Hdiff, Hse. unfold _zstat_generic2.
    rewrite fdiv_zero_zero. destruct alt; reflexivity. }
  split; [exact Hall | exact (Hall larger)].
Qed.

End TesterProperties.

(** ** Instances

    The theorems above, applied to concrete inputs, with the reference
    distribution standing for the normal one where a distribution is
    needed. *)


Lemma valid_observation_949 : valid_observation 949 10000.
Proof. unfold valid_observation. lia. Qed.

Lemma valid_observation_1243 : valid_observation 1243 10000.
Proof. unfold valid_observation. lia. Qed.

Lemma valid_observation_0_100 : valid_observation 0 100.
Proof. unfold valid_observation. lia. Qed.

Lemma pooled_se_recorded : pooled_se 949 10000 1243 10000 <> 0.
Proof.
  unfold pooled_se.
  assert (pooled_proportion 949 10000 1243 10000 = 0.1096) as ->
    by (unfold pooled_proportion; rewrite !plus_IZR; lra).
  apply Rgt_not_eq, sqrt_lt_R0. lra.
Qed.

Lemma pooled_se_0_100 : pooled_se 0 100 0 100 = 0.
Proof.
  unfold pooled_se, pooled_proportion.
  replace (IZR (0 + 0) / IZR (100 + 100) * (1 - IZR (0 + 0) / IZR (100 + 100))
           * (1 / 100 + 1 / 100)) with 0
    by (rewrite !plus_IZR; lra).
  apply sqrt_0.
Qed.


Lemma proportion_ci_scenarios_witness :
  1.95996 <= unif_ppf (1 - 0.05 / 2) <= 1.95997 /\
  (exists lo hi : R,
     proportion_ci unif_ppf 949 10000 default_alpha
       = Ok (Fin 0.0949, Fin lo, Fin hi) /\
     Rabs (lo - 0.089156) <= 5e-7 /\ Rabs (hi - 0.100644) <= 5e-7) /\
  (exists lo hi : R,
     proportion_ci unif_ppf 1243 10000 default_alpha
       = Ok (Fin 0.1243, Fin lo, Fin hi) /\
     Rabs (lo - 0.117834) <= 5e-7 /\ Rabs (hi - 0.130766) <= 5e-7).
Proof.
  split; [exact unif_ppf_975 |].
  exact (proportion_ci_scenarios unif_ppf unif_ppf_975).
Defined.






Lemma ab_test_statistic_reversed_witness :
  valid_observation 949 10000 /\ valid_observation 1243 10000 /\
  pooled_se 949 10000 1243 10000 <> 0 /\
  exists z : R,
    ab_test unif_cdf 949 10000 1243 10000 = (Fin z, Fin (1 - unif_cdf z)) /\
    z = (point_estimate 949 10000 - point_estimate 1243 10000)
        / pooled_se 949 10000 1243 10000 /\
    z = - spec_statistic 949 10000 1243 10000 /\
    (point_estimate 949 10000 < point_estimate 1243 10000 -> z < 0).
Proof.
  split; [exact valid_observation_949 |].
  split; [exact valid_observation_1243 |].
  split; [exact pooled_se_recorded |].
  exact (ab_test_statistic_reversed unif_cdf 949 10000 1243 10000
           valid_observation_949 valid_observation_1243 pooled_se_recorded).
Defined.

Lemma ab_test_scenario_witness :
  exists z p : R,
    ab_test unif_cdf 949 10000 1243 10000 = (Fin z, Fin p) /\
    -6.6555 < z < -6.6545 /\
    0.5 <= p.
Proof.
  exact (ab_test_scenario unif_cdf unif_cdf_mono unif_cdf_sym).
Defined.

Lemma proportions_ztest_degenerate_witness :
  valid_observation 0 100 /\ pooled_se 0 100 0 100 = 0 /\
  (forall alt : alternative,
     proportions_ztest unif_cdf (0, 0)%Z (100, 100)%Z alt = (NaN, NaN)) /\
  ab_test unif_cdf 0 100 0 100 = (NaN, NaN).
Proof.
  split; [exact valid_observation_0_100 |].
  split; [exact pooled_se_0_100 |].
  exact (proportions_ztest_degenerate unif_cdf 0 100 0 100
           valid_observation_0_100 valid_observation_0_100 pooled_se_0_100).
Defined.

(** ** Further properties of the interval estimator *)






Section IntervalFurther.

Variable Phi : R -> R.
Variable Phi_inv : R -> R.

Hypothesis Phi_mono : forall x y : R, x <= y -> Phi x <= Phi y.
Hypothesis Phi_sym : forall x : R, Phi (- x) = 1 - Phi x.
Hypothesis Phi_inv_spec : forall q : R, 0 < q < 1 -> Phi (Phi_inv q) = q.

(** With valid counts the estimator meets no special value for any
    significance level strictly between 0 and 2. *)
Lemma proportion_ci_finite (k n : Z) (alpha : R) :
  valid_observation k n -> 0 < alpha < 2 ->
  proportion_ci Phi_inv k n (Fin alpha) = Ok (wald_interval Phi_inv k n alpha).
Proof.
  intros (Hn & Hk) (Ha0 & Ha1).
  pose proof (IZR_pos_neq n Hn) as Hn0.
  rewrite proportion_ci_returns by lia.
  unfold of_int. rewrite fdiv_fin by lra.
  cbn [fsub fopp fadd fmul].
  rewrite norm_ppf_fin by lra.
  rewrite np_sqrt_fin by (apply (variance_nonneg k n Hn Hk)).
  reflexivity.
Qed.




Lemma Phi_inv_nonpos (q : R) : 0 < q < 1 / 2 -> Phi_inv q <= 0.
Proof.
  intros [Hq0 Hq].
  destruct (Rle_lt_dec (Phi_inv q) 0) as [H | H]; [exact H |].
  pose proof (Phi_mono _ _ (Rlt_le _ _ H)) as Hle.
  rewrite (Phi_zero Phi Phi_sym) in Hle.
  rewrite Phi_inv_spec in Hle by lra. lra.
Qed.



(** X4: a significance level strictly between 1 and 2 is accepted; the
    critical value is then not positive and the returned bounds are
    swapped, the third component below the point estimate and the second
    one above it. *)
Theorem proportion_ci_alpha_above_one (k n : Z) (alpha : R) :
  valid_observation k n -> 1 < alpha < 2 ->
  exists p lo hi : R,
    proportion_ci Phi_inv k n (Fin alpha) = Ok (Fin p, Fin lo, Fin hi) /\
    hi <= p <= lo.
Proof.
  intros Hv Ha.
  rewrite (proportion_ci_finite k n alpha Hv) by lra.
  unfold wald_interval, half_width.
  eexists _, _, _. split; [reflexivity |].
  assert (critical_value Phi_inv alpha <= 0) as Hz.
  { unfold critical_value. apply Phi_inv_nonpos. lra. }
  pose proof (standard_error_nonneg k n) as Hse.
  assert (critical_value Phi_inv alpha * standard_error k n <= 0) as Hm by nra.
  lra.
Qed.




End IntervalFurther.

(** ** Properties of the results table and of the plot arguments *)

Section TableProperties.

Variable Phi : R -> R.
Variable Phi_inv : R -> R.

Hypothesis Phi_mono : forall x y : R, x <= y -> Phi x <= Phi y.
Hypothesis Phi_sym : forall x : R, Phi (- x) = 1 - Phi x.
Hypothesis Phi_inv_spec : forall q : R, 0 < q < 1 -> Phi (Phi_inv q) = q.

(** The table on valid observations: every entry is finite, the three
    numeric columns hold the estimate and the bounds in percent. *)
Lemma results_valid (success_A n_A success_B n_B : Z) :
  valid_observation success_A n_A -> valid_observation success_B n_B ->
  results Phi_inv success_A n_A success_B n_B =
  Ok {| Variant := ["A"%string; "B"%string];
        Visitors := [n_A; n_B];
        Conversions := [success_A; success_B];
        CR := [Fin (point_estimate success_A n_A * 100);
               Fin (point_estimate success_B n_B * 100)];
        CI_Lower :=
          [Fin ((point_estimate success_A n_A
                 - half_width Phi_inv success_A n_A 0.05) * 100);
           Fin ((point_estimate success_B n_B
                 - half_width Phi_inv success_B n_B 0.05) * 100)];
        CI_Upper :=
          [Fin ((point_estimate success_A n_A
                 + half_width Phi_inv success_A n_A 0.05) * 100);
           Fin ((point_estimate success_B n_B
                 + half_width Phi_inv success_B n_B 0.05) * 100)] |}.
Proof.
  intros HA HB. unfold results, default_alpha.
  rewrite (proportion_ci_finite Phi_inv success_A n_A 0.05 HA) by lra.
  rewrite (proportion_ci_finite Phi_inv success_B n_B 0.05 HB) by lra.
  reflexivity.
Qed.



(** X10: on valid observations the vertical axis set by [plt.ylim] runs from
    0 to a finite top that is at least 2, and every upper bound of the table
    lies at least 2 below the top: both error bars fit in the picture. *)
Theorem plot_ylim_covers (success_A n_A success_B n_B : Z) :
  valid_observation success_A n_A -> valid_observation success_B n_B ->
  exists (df : DataFrame) (top : R),
    results Phi_inv success_A n_A success_B n_B = Ok df /\
    plot_ylim df = (Fin 0, Fin top) /\
    2 <= top /\
    forall u : float, In u (CI_Upper df) ->
      exists r : R, u = Fin r /\ r + 2 <= top.
Proof.
  intros HA HB.
  rewrite (results_valid _ _ _ _ HA HB).
  eexists _, _. split; [reflexivity |].
  split; [unfold plot_ylim, series_max; cbn; reflexivity |].
  assert (0 < 0.05 < 1) as Ha by lra.
  pose proof (half_width_nonneg Phi Phi_inv Phi_mono Phi_sym Phi_inv_spec
                success_A n_A 0.05 Ha) as HhA.
  destruct HA as [HnA HkA].
  pose proof (point_estimate_range success_A n_A HnA HkA) as [HpA _].
  set (uA := (point_estimate success_A n_A
              + half_width Phi_inv success_A n_A 0.05) * 100) in *.
  set (uB := (point_estimate success_B n_B
              + half_width Phi_inv success_B n_B 0.05) * 100) in *.
  assert (0 <= uA) as HuA by (unfold uA; lra).
  pose proof (Rmax_l uA uB) as Hl. pose proof (Rmax_r uA uB) as Hr.
  split; [lra |].
  intros u [<- | [<- | []]]; eexists; (split; [reflexivity | lra]).
Qed.

End TableProperties.

(** ** Further properties of the hypothesis tester *)

Lemma Rneg_opp (a : R) : a <> 0 -> Rneg (- a) = negb (Rneg a).
Proof.
  intros Ha. unfold Rneg.
  destruct (Rlt_dec (- a) 0), (Rlt_dec a 0); try reflexivity; lra.
Qed.

Lemma fdiv_opp_l (x : float) (b : R) :
  (fopp x / Fin b)%fl = fopp (x / Fin b)%fl.
Proof.
  destruct x as [| s | a]; cbn [fopp fdiv].
  - reflexivity.
  - now rewrite negb_xorb_l.
  - destruct (Req_dec_T b 0) as [Eb | Nb].
    + destruct (Req_dec_T a 0) as [Ea | Na];
        destruct (Req_dec_T (- a) 0) as [Ea' | Na']; try lra.
      * reflexivity.
      * cbn [fopp]. now rewrite Rneg_opp.
    + cbn [fopp]. f_equal. field. exact Nb.
Qed.

Lemma fabs_opp (x : float) : fabs (fopp x) = fabs x.
Proof.
  destruct x as [| s | a]; cbn; try reflexivity. now rewrite Rabs_Ropp.
Qed.

Lemma pooled_se_swap (k1 n1 k2 n2 : Z) :
  pooled_se k2 n2 k1 n1 = pooled_se k1 n1 k2 n2.
Proof.
  unfold pooled_se, pooled_proportion.
  rewrite (Z.add_comm k2 k1), (Z.add_comm n2 n1).
  rewrite (Rplus_comm (1 / IZR n2)). reflexivity.
Qed.


Section TesterFurther.

Variable Phi : R -> R.

Hypothesis Phi_mono : forall x y : R, x <= y -> Phi x <= Phi y.
Hypothesis Phi_sym : forall x : R, Phi (- x) = 1 - Phi x.
Hypothesis Phi_range : forall x : R, 0 <= Phi x <= 1.

Lemma norm_cdf_opp (x : float) : norm_cdf Phi (fopp x) = norm_sf Phi x.
Proof.
  destruct x as [| [|] | a]; cbn; try reflexivity. now rewrite Phi_sym.
Qed.

Lemma norm_sf_opp (x : float) : norm_sf Phi (fopp x) = norm_cdf Phi x.
Proof.
  destruct x as [| [|] | a]; cbn; try reflexivity.
  rewrite Phi_sym. f_equal. ring.
Qed.


(** X11: swapping the two samples negates the statistic; the p-value is
    kept when 'larger' and 'smaller' are exchanged as well, and the
    two-sided p-value is kept as it is. *)
Theorem proportions_ztest_antisymmetric (k1 n1 k2 n2 : Z) :
  valid_observation k1 n1 -> valid_observation k2 n2 ->
  proportions_ztest Phi (k2, k1) (n2, n1) smaller
    = (fopp (fst (proportions_ztest Phi (k1, k2) (n1, n2) larger)),
       snd (proportions_ztest Phi (k1, k2) (n1, n2) larger)) /\
  proportions_ztest Phi (k2, k1) (n2, n1) larger
    = (fopp (fst (proportions_ztest Phi (k1, k2) (n1, n2) smaller)),
       snd (proportions_ztest Phi (k1, k2) (n1, n2) smaller)) /\
  proportions_ztest Phi (k2, k1) (n2, n1) two_sided
    = (fopp (fst (proportions_ztest Phi (k1, k2) (n1, n2) two_sided)),
       snd (proportions_ztest Phi (k1, k2) (n1, n2) two_sided)).
Proof.
  intros H1 H2.
  rewrite !(proportions_ztest_unfold Phi k1 n1 k2 n2 _ H1 H2).
  rewrite !(proportions_ztest_unfold Phi k2 n2 k1 n1 _ H2 H1).
  rewrite pooled_se_swap.
  replace (Fin (point_estimate k2 n2 - point_estimate k1 n1))
    with (fopp (Fin (point_estimate k1 n1 - point_estimate k2 n2)))
    by (cbn [fopp]; f_equal; ring).
  unfold _zstat_generic2. cbn [fst snd].
  rewrite fdiv_opp_l, norm_cdf_opp, norm_sf_opp, fabs_opp.
  repeat split.
Qed.





End TesterFurther.

(** *** Empty samples and degenerate counts *)













Section TesterEdges.

Variable Phi : R -> R.




End TesterEdges.

(** ** Instances of the further properties *)









Lemma proportion_ci_alpha_above_one_witness :
  valid_observation 949 10000 /\ 1 < 1.5 < 2 /\
  exists p lo hi : R,
    proportion_ci unif_ppf 949 10000 (Fin 1.5) = Ok (Fin p, Fin lo, Fin hi) /\
    hi <= p <= lo.
Proof.
  assert (1 < 1.5 < 2) as Ha by lra.
  split; [exact valid_observation_949 | split; [exact Ha |]].
  exact (proportion_ci_alpha_above_one unif_cdf unif_ppf
           unif_cdf_mono unif_cdf_sym unif_cdf_ppf
           949 10000 1.5 valid_observation_949 Ha).
Defined.





Lemma plot_ylim_covers_witness :
  valid_observation 949 10000 /\ valid_observation 1243 10000 /\
  exists (df : DataFrame) (top : R),
    results unif_ppf 949 10000 1243 10000 = Ok df /\
    plot_ylim df = (Fin 0, Fin top) /\
    2 <= top /\
    forall u : float, In u (CI_Upper df) ->
      exists r : R, u = Fin r /\ r + 2 <= top.
Proof.
  split; [exact valid_observation_949 |].
  split; [exact valid_observation_1243 |].
  exact (plot_ylim_covers unif_cdf unif_ppf
           unif_cdf_mono unif_cdf_sym unif_cdf_ppf
           949 10000 1243 10000 valid_observation_949 valid_observation_1243).
Defined.

Lemma proportions_ztest_antisymmetric_witness :
  valid_observation 949 10000 /\ valid_observation 1243 10000 /\
  proportions_ztest unif_cdf (1243, 949)%Z (10000, 10000)%Z smaller
    = (fopp (fst (proportions_ztest unif_cdf (949, 1243)%Z
                    (10000, 10000)%Z larger)),
       snd (proportions_ztest unif_cdf (949, 1243)%Z
              (10000, 10000)%Z larger)).
Proof.
  split; [exact valid_observation_949 |].
  split; [exact valid_observation_1243 |].
  exact (proj1 (proportions_ztest_antisymmetric unif_cdf unif_cdf_sym
                  949 10000 1243 10000
                  valid_observation_949 valid_observation_1243)).
Defined.







